(** * Notes API: a shallow embedding of the two NotesService variants

    Variant A ([src/src/modules/notes/notes.controller.ts], string ids):
    [findOne] throws [NotFoundException], [update] is
    findOne / Object.assign / save, [remove] is findOne / repository.remove,
    and [findAll] adds a [LIKE '%title%'] condition when the filter's title
    is truthy.

    Variant B ([src/unnamed/part_000] with [src/src/notes/notes.controller.ts],
    numeric ids): [findOne] returns the repository's null marker,
    [update] is repository.update followed by findOne, [remove] is
    repository.delete.

    The TypeORM repository over the SQLite table ([src/unnamed/part_001]:
    [type: 'sqlite']) is an external collaborator; its primitives are
    modelled below with the semantics of the SQL they issue.

    Strings (titles, contents, filters) are the byte strings the driver
    binds, i.e. the UTF-8 encoding of the JavaScript strings. Keys of
    variant B are the integer values of SQLite's [INTEGER PRIMARY KEY]
    column; a key that comes from JavaScript is a number, and for the keys
    the statements below read back (a key the caller passed in) the stored
    integer and the JavaScript number agree. The one place where the driver
    turns a stored integer into a JavaScript number that may differ from it
    is the key it reports for a generated row ([lastID]): that conversion is
    modelled ([kc_report]). Payload ids that are not integers (e.g. [1.5])
    are outside the model's key type. *)

From Stdlib Require Import String Ascii List Bool ZArith Lia.
Import ListNotations.
Open Scope string_scope.

(** ** Data model *)

(** A persisted row of the [note] table: the id and the title/content pair. *)
Record Note (K : Type) := mkNote { id : K; title : string; content : string }.
Arguments mkNote {K} _ _ _.
Arguments id {K} _.
Arguments title {K} _.
Arguments content {K} _.

(** A JavaScript object of the entity's shape whose own properties may be
    missing: request bodies ([Partial<Note>], [CreateNoteDto],
    [UpdateNoteDto]; main.ts installs no ValidationPipe, so the body is the
    raw JSON object) and the entity objects the repository hands back. *)
Record NoteObj (K : Type) := mkObj
  { o_id : option K; o_title : option string; o_content : option string }.
Arguments mkObj {K} _ _ _.
Arguments o_id {K} _.
Arguments o_title {K} _.
Arguments o_content {K} _.

(** [FilterNoteDto]: [title?: string]. *)
Record FilterNoteDto := mkFilter { f_title : option string }.

(** The SQLite table: rows in storage order, and the AUTOINCREMENT
    sequence ([sqlite_sequence]) used by generated integer keys. *)
Record store (K : Type) := mkStore { rows : list (Note K); seq : Z }.
Arguments mkStore {K} _ _.
Arguments rows {K} _.
Arguments seq {K} _.

(** Errors that reach the HTTP boundary. *)
Inductive err (K : Type) :=
| NotFound (k : K)             (* NotFoundException of variant A *)
| UpdateValuesMissing          (* TypeORM: UPDATE with an empty SET list *)
| NotNullViolation             (* INSERT without a NOT NULL column *)
| UniqueViolation (k : K)      (* primary key already taken *)
| DatatypeMismatch             (* SQLITE_MISMATCH: a key the column refuses *)
| StoreFull                    (* SQLITE_FULL: AUTOINCREMENT exhausted *)
| PatternTooComplex.           (* LIKE pattern over SQLITE_LIMIT_LIKE_PATTERN_LENGTH *)
Arguments NotFound {K} _.
Arguments UpdateValuesMissing {K}.
Arguments NotNullViolation {K}.
Arguments UniqueViolation {K} _.
Arguments DatatypeMismatch {K}.
Arguments StoreFull {K}.
Arguments PatternTooComplex {K}.

Inductive result (K A : Type) :=
| Ok (a : A)
| Err (e : err K).
Arguments Ok {K A} _.
Arguments Err {K A} _.

(** ** A state and error monad: an async service call against the store.
    A thrown error keeps the store as it is at the throw (writes already
    issued stay committed). *)
Definition M (K A : Type) := store K -> result K A * store K.

Definition ret {K A} (a : A) : M K A := fun st => (Ok a, st).
Definition throw {K A} (e : err K) : M K A := fun st => (Err e, st).
Definition bind {K A B} (m : M K A) (f : A -> M K B) : M K B :=
  fun st => match m st with
            | (Ok a, st') => f a st'
            | (Err e, st') => (Err e, st')
            end.

Notation "x <- m ;; k" := (bind m (fun x => k))
  (at level 61, m at next level, right associativity).
Notation "m ;;; k" := (bind m (fun _ => k))
  (at level 61, right associativity).

(** ** SQLite's LIKE *)

Definition to_list (s : string) : list ascii := list_ascii_of_string s.

Definition byte_val (b : ascii) : Z := Z.of_nat (nat_of_ascii b).

(** [sqlite3Utf8Trans1[c - 0xc0]]: the payload bits of a lead byte. *)
Definition utf8_trans1 (c : Z) : Z :=
  if (c <? 224)%Z then (c - 192)%Z
  else if (c <? 240)%Z then (c - 224)%Z
  else if (c <? 248)%Z then (c - 240)%Z
  else if (c <? 252)%Z then (c - 248)%Z
  else if (c <? 254)%Z then (c - 252)%Z
  else 0%Z.

(** The loop of [sqlite3Utf8Read] over continuation bytes
    ([(b & 0xc0) == 0x80]), in 32-bit unsigned arithmetic. *)
Fixpoint utf8_cont (c : Z) (l : list ascii) : Z * list ascii :=
  match l with
  | [] => (c, [])
  | b :: l' =>
      if (Z.land (byte_val b) 192 =? 128)%Z
      then utf8_cont (Z.land (Z.shiftl c 6 + Z.land 63 (byte_val b)) 4294967295) l'
      else (c, l)
  end.

(** Overlong forms, surrogates and U+FFFE/U+FFFF read as U+FFFD. *)
Definition utf8_fix (c : Z) : Z :=
  if (c <? 128)%Z || (Z.land c 4294965248 =? 55296)%Z
     || (Z.land c 4294967294 =? 65534)%Z
  then 65533%Z else c.

(** The characters [patternCompare] reads from a value with
    [sqlite3Utf8Read], up to the first NUL byte (the value is read as a C
    string). [fuel] bounds the number of characters. *)
Fixpoint utf8_chars_aux (fuel : nat) (l : list ascii) : list Z :=
  match fuel with
  | O => []
  | S fuel' =>
      match l with
      | [] => []
      | b :: l' =>
          let c := byte_val b in
          if (c =? 0)%Z then []
          else if (c <? 192)%Z then c :: utf8_chars_aux fuel' l'
          else let (v, rest) := utf8_cont (utf8_trans1 c) l' in
               utf8_fix v :: utf8_chars_aux fuel' rest
      end
  end.

Definition utf8_chars (s : string) : list Z :=
  utf8_chars_aux (String.length s) (to_list s).

(** [sqlite3Tolower] on ASCII code points. *)
Definition lower (c : Z) : Z :=
  if (65 <=? c)%Z && (c <=? 90)%Z then (c + 32)%Z else c.

(** A literal pattern character against a string character: equal, or
    both ASCII and equal up to case ([noCase]). *)
Definition like_char_eq (c d : Z) : bool :=
  (c =? d)%Z || ((c <? 128)%Z && (d <? 128)%Z && (lower c =? lower d)%Z).

(** [patternCompare] without ESCAPE: [%] (37) matches any sequence of
    characters, [_] (95) any one character. *)
Fixpoint like (p s : list Z) : bool :=
  match p with
  | [] => match s with [] => true | _ :: _ => false end
  | c :: p' =>
      if (c =? 37)%Z then
        (fix go (s : list Z) : bool :=
           match s with
           | [] => like p' []
           | d :: s' => like p' s || go s'
           end) s
      else if (c =? 95)%Z then
        match s with [] => false | _ :: s' => like p' s' end
      else
        match s with [] => false | d :: s' => like_char_eq c d && like p' s' end
  end.

(** The parameter bound by [`%${filterNoteDto.title}%`]. *)
Definition like_param (t : string) : string := "%" ++ t ++ "%".

(** [title LIKE :title] is [like(:title, title)]. *)
Definition title_like (t : string) (s : string) : bool :=
  like (utf8_chars (like_param t)) (utf8_chars s).

(** [SQLITE_MAX_LIKE_PATTERN_LENGTH]: longer patterns (in bytes) make
    [likeFunc] fail with "LIKE or GLOB pattern too complex". *)
Definition like_max : Z := 50000.

(** JavaScript truthiness of an optional string property. *)
Definition truthy (o : option string) : option string :=
  match o with
  | Some t => if String.eqb t "" then None else Some t
  | None => None
  end.

(** ** The primary key column *)

(** What the repository needs to know about the primary key column:
    - [kc_next]: the key an INSERT without id gets ([None]: SQLITE_FULL);
    - [kc_report]: that key as the driver reports it to JavaScript;
    - [kc_ok]: the values the column accepts as a key;
    - [kc_seq]: the sequence after an INSERT of a key. *)
Record KeyColumn (K : Type) := mkKeyColumn
  { kc_next : store K -> option K;
    kc_report : K -> K;
    kc_ok : K -> bool;
    kc_seq : K -> Z -> Z }.
Arguments mkKeyColumn {K} _ _ _ _.
Arguments kc_next {K} _ _.
Arguments kc_report {K} _ _.
Arguments kc_ok {K} _ _.
Arguments kc_seq {K} _ _ _.

Section Repository.

Context {K : Type}.
Variable K_eq_dec : forall x y : K, {x = y} + {x <> y}.
Variable gen : KeyColumn K.

Definition keyb (x y : K) : bool := if K_eq_dec x y then true else false.

Definition ids (st : store K) : list K := map id (rows st).

Definition to_obj (n : Note K) : NoteObj K :=
  mkObj (Some (id n)) (Some (title n)) (Some (content n)).

(** [Object.assign(target, src)]: every own property of [src] overwrites. *)
Definition assign (target src : NoteObj K) : NoteObj K :=
  mkObj (match o_id src with Some v => Some v | None => o_id target end)
        (match o_title src with Some v => Some v | None => o_title target end)
        (match o_content src with Some v => Some v | None => o_content target end).

(** An UPDATE of one row with the columns the object carries. *)
Definition set_row (n : Note K) (o : NoteObj K) : Note K :=
  mkNote (match o_id o with Some v => v | None => id n end)
         (match o_title o with Some v => v | None => title n end)
         (match o_content o with Some v => v | None => content n end).

Fixpoint find_row (k : K) (rs : list (Note K)) : option (Note K) :=
  match rs with
  | [] => None
  | r :: rs' => if keyb (id r) k then Some r else find_row k rs'
  end.

(** [repository.find()] / [getMany()] without conditions. *)
Definition repo_find : M K (list (NoteObj K)) :=
  fun st => (Ok (map to_obj (rows st)), st).

(** [repository.findOneBy({ id })] / [findOne({ where: { id } })]. *)
Definition repo_findOneBy (k : K) : M K (option (NoteObj K)) :=
  fun st => (Ok (option_map to_obj (find_row k (rows st))), st).

(** [createQueryBuilder('note')], optionally [andWhere('note.title LIKE
    :title', { title: `%${t}%` })], then [getMany()]. *)
Definition repo_query (cond : option string) : M K (list (NoteObj K)) :=
  fun st =>
    match cond with
    | None => (Ok (map to_obj (rows st)), st)
    | Some t =>
        if (like_max <? Z.of_nat (String.length (like_param t)))%Z
        then (Err PatternTooComplex, st)
        else (Ok (map to_obj (filter (fun r => title_like t (title r)) (rows st))), st)
    end.

(** [repository.create(dto)]: a fresh entity object carrying the dto's
    column properties. *)
Definition repo_create (dto : NoteObj K) : NoteObj K := dto.

(** INSERT of an entity under key [k]: the key column must accept [k]
    (checked first, when the row's key is computed), and every NOT NULL
    column must be present. *)
Definition insert_row (k : K) (o : NoteObj K) : result K (Note K) :=
  if negb (kc_ok gen k) then Err DatatypeMismatch
  else
    match o_title o, o_content o with
    | Some t, Some c => Ok (mkNote k t c)
    | _, _ => Err NotNullViolation
    end.

(** [repository.save(entity)]: SELECT by the entity's id; UPDATE that row
    with the entity's columns when it exists, else INSERT (generating the
    key when the entity has none). Resolves to the entity object, its id
    filled in with the key the driver reports. *)
Definition repo_save (o : NoteObj K) : M K (NoteObj K) :=
  fun st =>
    match o_id o with
    | Some k =>
        match find_row k (rows st) with
        | Some _ =>
            (Ok o, mkStore (map (fun r => if keyb (id r) k then set_row r o else r)
                                (rows st)) (seq st))
        | None =>
            match insert_row k o with
            | Ok r => (Ok o, mkStore (rows st ++ [r]) (kc_seq gen k (seq st)))
            | Err e => (Err e, st)
            end
        end
    | None =>
        match kc_next gen st with
        | None => (Err StoreFull, st)
        | Some k =>
            match insert_row k o with
            | Ok r => (Ok (mkObj (Some (kc_report gen k)) (o_title o) (o_content o)),
                       mkStore (rows st ++ [r]) (kc_seq gen k (seq st)))
            | Err e => (Err e, st)
            end
        end
    end.

(** [repository.remove(entity)]: DELETE of the entity's row. *)
Definition repo_remove (o : NoteObj K) : M K (NoteObj K) :=
  fun st =>
    match o_id o with
    | Some k => (Ok (mkObj None (o_title o) (o_content o)),
                 mkStore (filter (fun r => negb (keyb (id r) k)) (rows st)) (seq st))
    | None => (Ok o, st)
    end.

Definition has_columns (o : NoteObj K) : bool :=
  match o_id o, o_title o, o_content o with
  | None, None, None => false
  | _, _, _ => true
  end.

(** [repository.update(k, partial)]: [UPDATE note SET ... WHERE id = k].
    TypeORM refuses an empty SET list. SQLite computes the new key of each
    matching row: a key equal to the row's own key is kept; another key
    must be accepted by the column, then must not be held by another row. *)
Definition repo_update (k : K) (o : NoteObj K) : M K unit :=
  fun st =>
    if negb (has_columns o) then (Err UpdateValuesMissing, st)
    else if negb (existsb (fun r => keyb (id r) k) (rows st)) then (Ok tt, st)
    else
      let st' := mkStore (map (fun r => if keyb (id r) k then set_row r o else r)
                              (rows st)) (seq st) in
      match o_id o with
      | Some k' =>
          if keyb k' k then (Ok tt, st')
          else if negb (kc_ok gen k') then (Err DatatypeMismatch, st)
          else if existsb (fun r => keyb (id r) k') (rows st)
          then (Err (UniqueViolation k'), st)
          else (Ok tt, st')
      | None => (Ok tt, st')
      end.

(** [repository.delete(k)]: [DELETE FROM note WHERE id = k]. *)
Definition repo_delete (k : K) : M K unit :=
  fun st => (Ok tt, mkStore (filter (fun r => negb (keyb (id r) k)) (rows st)) (seq st)).

End Repository.

(** ** Variant A: [src/src/modules/notes] NotesService *)
Module ServiceA.
Section S.
Context {K : Type}.
Variable K_eq_dec : forall x y : K, {x = y} + {x <> y}.
Variable gen : KeyColumn K.

Definition create (createNoteDto : NoteObj K) : M K (NoteObj K) :=
  let note := repo_create createNoteDto in
  repo_save K_eq_dec gen note.

Definition findAll (filterNoteDto : FilterNoteDto) : M K (list (NoteObj K)) :=
  repo_query (truthy (f_title filterNoteDto)).

Definition findOne (id : K) : M K (NoteObj K) :=
  note <- repo_findOneBy K_eq_dec id ;;
  match note with
  | None => throw (NotFound id)
  | Some n => ret n
  end.

Definition update (id : K) (updateNoteDto : NoteObj K) : M K (NoteObj K) :=
  note <- findOne id ;;
  let note := assign note updateNoteDto in
  repo_save K_eq_dec gen note.

Definition remove (id : K) : M K unit :=
  note <- findOne id ;;
  repo_remove K_eq_dec note ;;;
  ret tt.
End S.
End ServiceA.

(** ** Variant B: [src/unnamed/part_000] NotesService *)
Module ServiceB.
Section S.
Context {K : Type}.
Variable K_eq_dec : forall x y : K, {x = y} + {x <> y}.
Variable gen : KeyColumn K.

Definition findAll : M K (list (NoteObj K)) := repo_find.

Definition findOne (id : K) : M K (option (NoteObj K)) :=
  repo_findOneBy K_eq_dec id.

Definition create (note : NoteObj K) : M K (NoteObj K) :=
  let newNote := repo_create note in
  repo_save K_eq_dec gen newNote.

Definition update (id : K) (note : NoteObj K) : M K (option (NoteObj K)) :=
  repo_update K_eq_dec gen id note ;;;
  findOne id.

Definition remove (id : K) : M K unit :=
  repo_delete K_eq_dec id ;;;
  ret tt.
End S.
End ServiceB.

(** ** Controllers *)

(** [src/src/modules/notes/notes.controller.ts]: the path id is passed to
    the service as the string it is. *)
Module ControllerA.
Section S.
Variable gen : KeyColumn string.

Definition create (createNoteDto : NoteObj string) : M string (NoteObj string) :=
  ServiceA.create string_dec gen createNoteDto.

Definition findAll (filterNoteDto : FilterNoteDto) : M string (list (NoteObj string)) :=
  ServiceA.findAll filterNoteDto.

Definition findOne (id : string) : M string (NoteObj string) :=
  ServiceA.findOne string_dec id.

Definition update (id : string) (updateNoteDto : NoteObj string) : M string (NoteObj string) :=
  ServiceA.update string_dec gen id updateNoteDto.

Definition remove (id : string) : M string unit :=
  ServiceA.remove string_dec id.
End S.
End ControllerA.

(** [src/src/notes/notes.controller.ts]: the path id is coerced with the
    unary plus ([+id]), JavaScript's ToNumber, taken here as a parameter. *)
Module ControllerB.
Section S.
Context {K : Type}.
Variable K_eq_dec : forall x y : K, {x = y} + {x <> y}.
Variable gen : KeyColumn K.
Variable unary_plus : string -> K.

Definition findAll : M K (list (NoteObj K)) := ServiceB.findAll.

Definition findOne (id : string) : M K (option (NoteObj K)) :=
  ServiceB.findOne K_eq_dec (unary_plus id).

Definition create (note : NoteObj K) : M K (NoteObj K) :=
  ServiceB.create K_eq_dec gen note.

Definition update (id : string) (note : NoteObj K) : M K (option (NoteObj K)) :=
  ServiceB.update K_eq_dec gen (unary_plus id) note.

Definition remove (id : string) : M K unit :=
  ServiceB.remove K_eq_dec (unary_plus id).
End S.
End ControllerB.

(** ** The key columns of the two tables *)

(** Variant A: a string key column; a generated key (uuid) is modelled as
    a string longer than every key in the table, hence distinct from all
    of them. No sequence is involved. *)
Definition fresh_str (l : list string) : string := fold_right String.append "x" l.

Definition genA : KeyColumn string :=
  mkKeyColumn (fun st => Some (fresh_str (ids st))) (fun k => k)
              (fun _ => true) (fun _ s => s).

(** Variant B: SQLite [INTEGER PRIMARY KEY AUTOINCREMENT]. A key is a
    64-bit signed integer. An INSERT without id takes one more than the
    largest of the sequence (which starts at 0) and the keys, and fails
    with SQLITE_FULL once that largest value is [2^63 - 1]; every INSERT
    raises the sequence to its key. *)
Definition int64_min : Z := (- 2 ^ 63)%Z.
Definition int64_max : Z := (2 ^ 63 - 1)%Z.

Definition max_id (l : list Z) : Z := fold_right Z.max 0%Z l.

Definition next_rowid (st : store Z) : option Z :=
  let m := Z.max (seq st) (max_id (ids st)) in
  if (m <? int64_max)%Z then Some (m + 1)%Z else None.

(** The conversion of a 64-bit integer to a JavaScript number (a double):
    exact up to [2^53] in magnitude, otherwise rounded to 53 significant
    bits, ties to even. *)
Definition round_double (z : Z) : Z :=
  if (Z.abs z <=? 2 ^ 53)%Z then z
  else
    let a := Z.abs z in
    let s := (Z.log2 a - 52)%Z in
    let q := Z.shiftr a s in
    let r := (a - Z.shiftl q s)%Z in
    let h := (2 ^ (s - 1))%Z in
    let q' := if (h <? r)%Z || ((r =? h)%Z && Z.odd q) then (q + 1)%Z else q in
    (Z.sgn z * Z.shiftl q' s)%Z.

Definition genB : KeyColumn Z :=
  mkKeyColumn next_rowid round_double
              (fun k => (int64_min <=? k)%Z && (k <=? int64_max)%Z)
              (fun k s => Z.max s k).

(** The service variants at their key columns. *)
Definition a_findAll := @ServiceA.findAll string.
Definition a_findOne := ServiceA.findOne string_dec.
Definition a_create := ServiceA.create string_dec genA.
Definition a_update := ServiceA.update string_dec genA.
Definition a_remove := ServiceA.remove string_dec.

Definition b_findAll := @ServiceB.findAll Z.
Definition b_findOne := ServiceB.findOne Z.eq_dec.
Definition b_create := ServiceB.create Z.eq_dec genB.
Definition b_update := ServiceB.update Z.eq_dec genB.
Definition b_remove := ServiceB.remove Z.eq_dec.

Definition empty {K} : store K := mkStore [] 0%Z.

Definition obj {K} (t c : string) : NoteObj K := mkObj None (Some t) (Some c).

(** Well-formed table: primary keys are unique. *)
Definition wf {K} (st : store K) : Prop := NoDup (map id (rows st)).

(** The spec's merge: fields present in the payload take the payload's
    value, the others keep the note's. *)
Definition spec_merge {K} (n : Note K) (u : NoteObj K) : NoteObj K :=
  mkObj (Some (match o_id u with Some v => v | None => id n end))
        (Some (match o_title u with Some v => v | None => title n end))
        (Some (match o_content u with Some v => v | None => content n end)).

(** Exact substring containment, as the spec words it. *)
Definition contains (t s : string) : Prop :=
  exists p q, to_list s = app p (app (to_list t) q).

Definition st1 : store string := mkStore [mkNote "a" "t" "c"; mkNote "b" "u" "d"] 0%Z.
Definition stB1 : store Z := mkStore [mkNote 1%Z "t" "c"; mkNote 2%Z "u" "d"] 2%Z.

(** ** Lemmas on the repository primitives *)

Local Open Scope list_scope.

Section RepoFacts.
Context {K : Type}.
Variable K_eq_dec : forall x y : K, {x = y} + {x <> y}.
Variable gen : KeyColumn K.

Lemma keyb_true (x y : K) : keyb K_eq_dec x y = true <-> x = y.
Proof. unfold keyb; destruct (K_eq_dec x y); split; congruence. Qed.

Lemma keyb_refl (x : K) : keyb K_eq_dec x x = true.
Proof. apply keyb_true; reflexivity. Qed.

Lemma keyb_false (x y : K) : x <> y -> keyb K_eq_dec x y = false.
Proof. unfold keyb; destruct (K_eq_dec x y); congruence. Qed.

Lemma find_row_none (k : K) (rs : list (Note K)) :
  ~ In k (map id rs) -> find_row K_eq_dec k rs = None.
Proof.
  induction rs as [|r rs IH]; simpl; intros Hn; [reflexivity|].
  rewrite keyb_false by (intro E; apply Hn; left; exact E).
  apply IH; intro H; apply Hn; right; exact H.
Qed.

Lemma find_row_some (k : K) (rs : list (Note K)) (r : Note K) :
  find_row K_eq_dec k rs = Some r -> id r = k /\ In r rs.
Proof.
  induction rs as [|r' rs IH]; simpl; [discriminate|].
  destruct (keyb K_eq_dec (id r') k) eqn:E.
  - intros H; injection H as <-; apply keyb_true in E; auto.
  - intros H; destruct (IH H); auto.
Qed.

Lemma find_row_in (rs : list (Note K)) (n : Note K) :
  In n rs -> exists r, find_row K_eq_dec (id n) rs = Some r.
Proof.
  induction rs as [|r rs IH]; simpl; [contradiction|].
  destruct (keyb K_eq_dec (id r) (id n)) eqn:E; [eauto|].
  intros [<-|H]; [rewrite keyb_refl in E; discriminate | auto].
Qed.

Lemma find_row_nodup (rs : list (Note K)) (n : Note K) :
  NoDup (map id rs) -> In n rs -> find_row K_eq_dec (id n) rs = Some n.
Proof.
  induction rs as [|r rs IH]; simpl; [contradiction|].
  intros Hd Hin; inversion Hd as [|x l Hnot Hd' Heq]; subst.
  destruct Hin as [<-|Hin]; [rewrite keyb_refl; reflexivity|].
  rewrite keyb_false; [auto|].
  intro E; apply Hnot; rewrite E; apply in_map; exact Hin.
Qed.

Lemma filter_not_key (k : K) (rs : list (Note K)) :
  ~ In k (map id (filter (fun r => negb (keyb K_eq_dec (id r) k)) rs)).
Proof.
  induction rs as [|r rs IH]; simpl; [auto|].
  destruct (keyb K_eq_dec (id r) k) eqn:E; simpl; [exact IH|].
  intros [H|H]; [|contradiction].
  rewrite H, keyb_refl in E; discriminate.
Qed.

Lemma filter_idem {A} (f : A -> bool) (l : list A) :
  filter f (filter f l) = filter f l.
Proof.
  induction l as [|x l IH]; simpl; [reflexivity|].
  destruct (f x) eqn:E; simpl; [rewrite E, IH|]; auto.
Qed.

Lemma existsb_key_true (k : K) (rs : list (Note K)) :
  In k (map id rs) -> existsb (fun r => keyb K_eq_dec (id r) k) rs = true.
Proof.
  intros H; apply in_map_iff in H as [r [Er Hr]].
  apply existsb_exists; exists r; rewrite Er, keyb_refl; auto.
Qed.

Lemma existsb_key_false (k : K) (rs : list (Note K)) :
  ~ In k (map id rs) -> existsb (fun r => keyb K_eq_dec (id r) k) rs = false.
Proof.
  induction rs as [|r rs IH]; simpl; intros H; [reflexivity|].
  rewrite keyb_false by (intro E; apply H; left; exact E); simpl.
  apply IH; intro; apply H; right; assumption.
Qed.

(** [save] never raises [NotFoundException]. *)
Lemma repo_save_not_notfound (o : NoteObj K) (st : store K) (k : K) :
  fst (repo_save K_eq_dec gen o st) <> Err (NotFound k).
Proof.
  unfold repo_save, insert_row.
  destruct (o_id o) as [k0|].
  - destruct (find_row K_eq_dec k0 (rows st)); [discriminate|].
    destruct (negb (kc_ok gen k0)); [discriminate|].
    destruct (o_title o), (o_content o); discriminate.
  - destruct (kc_next gen st) as [k0|]; [|discriminate].
    destruct (negb (kc_ok gen k0)); [discriminate|].
    destruct (o_title o), (o_content o); discriminate.
Qed.

(** [repository.update] never raises [NotFoundException] either. *)
Lemma repo_update_not_notfound (i : K) (u : NoteObj K) (st : store K) (k : K) :
  fst (ServiceB.update K_eq_dec gen i u st) <> Err (NotFound k).
Proof.
  unfold ServiceB.update, ServiceB.findOne, repo_update, repo_findOneBy, bind.
  destruct (negb (has_columns u)); [discriminate|].
  destruct (negb (existsb _ (rows st))); [discriminate|].
  destruct (o_id u) as [k'|]; [|discriminate].
  destruct (keyb K_eq_dec k' i); [discriminate|].
  destruct (negb (kc_ok gen k')); [discriminate|].
  destruct (existsb _ (rows st)); discriminate.
Qed.

End RepoFacts.

(** ** Update and create, step by step *)

Section UpdateFacts.
Context {K : Type}.
Variable K_eq_dec : forall x y : K, {x = y} + {x <> y}.
Variable gen : KeyColumn K.

Lemma assign_to_obj (n : Note K) (u : NoteObj K) :
  assign (to_obj n) u = spec_merge n u.
Proof. unfold assign, spec_merge, to_obj; simpl; destruct u as [[] [] []]; reflexivity. Qed.

Lemma to_obj_set_row (n : Note K) (u : NoteObj K) :
  to_obj (set_row n u) = spec_merge n u.
Proof. reflexivity. Qed.

Lemma findOneA_persisted (st : store K) (n : Note K) :
  wf st -> In n (rows st) ->
  ServiceA.findOne K_eq_dec (id n) st = (Ok (to_obj n), st).
Proof.
  intros Hwf Hin; unfold ServiceA.findOne, repo_findOneBy, bind, ret.
  rewrite (find_row_nodup K_eq_dec _ _ Hwf Hin); reflexivity.
Qed.





(** A save of an id-less object with both columns, when the column yields
    a fresh key it accepts, appends a row under that key, resolves to the
    key as the driver reports it, and the next lookup finds the row. *)
Lemma create_then_find (st : store K) (t c : string) (k : K) :
  kc_next gen st = Some k -> ~ In k (ids st) -> kc_ok gen k = true ->
  ServiceA.create K_eq_dec gen (obj t c) st
  = (Ok (mkObj (Some (kc_report gen k)) (Some t) (Some c)),
     mkStore (rows st ++ [mkNote k t c]) (kc_seq gen k (seq st)))
  /\ ServiceB.create K_eq_dec gen (obj t c) st = ServiceA.create K_eq_dec gen (obj t c) st
  /\ find_row K_eq_dec k (rows st ++ [mkNote k t c]) = Some (mkNote k t c).
Proof.
  intros Hg Hfresh Hok.
  unfold ServiceA.create, ServiceB.create, repo_create, repo_save, obj, insert_row; simpl.
  rewrite Hg, Hok; simpl.
  split; [reflexivity|split; [reflexivity|]].
  unfold ids in Hfresh; clear Hg.
  induction (rows st) as [|r rs IH]; simpl in *.
  - rewrite keyb_refl; reflexivity.
  - rewrite keyb_false by (intro E; apply Hfresh; left; exact E).
    apply IH; intro; apply Hfresh; right; assumption.
Qed.

(** A save of an id-less object when the column has no key left fails
    with SQLITE_FULL and leaves the table. *)
Lemma create_full (st : store K) (a : NoteObj K) :
  o_id a = None -> kc_next gen st = None ->
  ServiceA.create K_eq_dec gen a st = (Err StoreFull, st)
  /\ ServiceB.create K_eq_dec gen a st = (Err StoreFull, st).
Proof.
  intros Ha Hg; unfold ServiceA.create, ServiceB.create, repo_create, repo_save.
  rewrite Ha, Hg; split; reflexivity.
Qed.

End UpdateFacts.

Lemma string_length_app (s1 s2 : string) :
  String.length (String.append s1 s2) = String.length s1 + String.length s2.
Proof. induction s1 as [|a s1 IH]; simpl; [reflexivity|rewrite IH; reflexivity]. Qed.

Lemma fresh_str_longer (l : list string) (k : string) :
  In k l -> String.length k < String.length (fresh_str l).
Proof.
  unfold fresh_str.
  assert (Hpos : forall l', 0 < String.length (fold_right String.append "x" l')).
  { induction l' as [|x l' IH]; simpl; [lia|rewrite string_length_app; lia]. }
  induction l as [|x l IH]; simpl; [contradiction|].
  rewrite string_length_app; intros [<-|H]; [specialize (Hpos l); lia|].
  specialize (IH H); lia.
Qed.

Lemma genA_fresh (st : store string) (k : string) :
  kc_next genA st = Some k -> ~ In k (ids st).
Proof.
  simpl; intros E; injection E as <-; intros H.
  pose proof (fresh_str_longer _ _ H); lia.
Qed.

Lemma max_id_ge (l : list Z) (k : Z) : In k l -> (k <= max_id l)%Z.
Proof.
  induction l as [|x l IH]; simpl; [contradiction|].
  intros [<-|H]; [lia|specialize (IH H); lia].
Qed.

Lemma max_id_nonneg (l : list Z) : (0 <= max_id l)%Z.
Proof. induction l as [|x l IH]; simpl; lia. Qed.

Lemma max_id_lt (l : list Z) (b : Z) :
  (0 < b)%Z -> Forall (fun k => (k < b)%Z) l -> (max_id l < b)%Z.
Proof. intros Hb; induction 1; simpl; lia. Qed.

Lemma next_rowid_spec (st : store Z) :
  (Z.max (seq st) (max_id (ids st)) < int64_max)%Z ->
  next_rowid st = Some (Z.max (seq st) (max_id (ids st)) + 1)%Z.
Proof. intros H; unfold next_rowid; apply Z.ltb_lt in H; rewrite H; reflexivity. Qed.

Lemma next_rowid_full (st : store Z) :
  (int64_max <= Z.max (seq st) (max_id (ids st)))%Z -> next_rowid st = None.
Proof.
  intros H; unfold next_rowid.
  destruct (Z.ltb_spec (Z.max (seq st) (max_id (ids st))) int64_max); [lia|reflexivity].
Qed.

Lemma genB_fresh (st : store Z) (k : Z) :
  kc_next genB st = Some k -> ~ In k (ids st).
Proof.
  simpl; unfold next_rowid.
  destruct (_ <? int64_max)%Z; [|discriminate].
  intros E; injection E as <-; intros H.
  pose proof (max_id_ge _ _ H); lia.
Qed.

Lemma genB_ok (st : store Z) (k : Z) :
  kc_next genB st = Some k -> kc_ok genB k = true.
Proof.
  simpl; unfold next_rowid.
  destruct (Z.ltb_spec (Z.max (seq st) (max_id (ids st))) int64_max); [|discriminate].
  intros E; injection E as <-.
  pose proof (max_id_nonneg (ids st)).
  apply andb_true_iff; split; [apply Z.leb_le|apply Z.leb_le];
    unfold int64_min, int64_max in *; lia.
Qed.

Lemma round_double_exact (z : Z) : (0 <= z <= 2 ^ 53)%Z -> round_double z = z.
Proof.
  intros H; unfold round_double.
  rewrite Z.abs_eq by lia.
  destruct (Z.leb_spec z (2 ^ 53)); [reflexivity|lia].
Qed.

(** ** Further properties of the services *)

Section ServiceFacts.
Context {K : Type}.
Variable K_eq_dec : forall x y : K, {x = y} + {x <> y}.
Variable gen : KeyColumn K.

Lemma split_persisted (st : store K) (n : Note K) :
  wf st -> In n (rows st) ->
  exists l1 l2, rows st = l1 ++ n :: l2
    /\ ~ In (id n) (map id l1) /\ ~ In (id n) (map id l2).
Proof.
  intros Hwf Hin; destruct (in_split n (rows st) Hin) as [l1 [l2 E]].
  exists l1, l2; split; [exact E|].
  unfold wf in Hwf; rewrite E, map_app in Hwf; simpl in Hwf.
  apply NoDup_remove_2 in Hwf; rewrite in_app_iff in Hwf.
  split; intro H; apply Hwf; [left|right]; exact H.
Qed.

Lemma map_keyed_other (k : K) (f : Note K -> Note K) (l : list (Note K)) :
  ~ In k (map id l) -> map (fun r => if keyb K_eq_dec (id r) k then f r else r) l = l.
Proof.
  induction l as [|r l IH]; simpl; intros H; [reflexivity|].
  rewrite keyb_false by (intro E; apply H; left; exact E).
  rewrite IH; [reflexivity|]; intro; apply H; right; assumption.
Qed.

Lemma filter_keyed_other (k : K) (l : list (Note K)) :
  ~ In k (map id l) -> filter (fun r => negb (keyb K_eq_dec (id r) k)) l = l.
Proof.
  induction l as [|r l IH]; simpl; intros H; [reflexivity|].
  rewrite keyb_false by (intro E; apply H; left; exact E); simpl.
  rewrite IH; [reflexivity|]; intro; apply H; right; assumption.
Qed.

Lemma find_row_split (k : K) (l1 l2 : list (Note K)) (x : Note K) :
  ~ In k (map id l1) -> id x = k -> find_row K_eq_dec k (l1 ++ x :: l2) = Some x.
Proof.
  induction l1 as [|r l1 IH]; simpl; intros H Hx.
  - rewrite Hx, keyb_refl; reflexivity.
  - rewrite keyb_false by (intro E; apply H; left; exact E).
    apply IH; [intro; apply H; right; assumption|exact Hx].
Qed.

Lemma find_row_none_inv (k : K) (rs : list (Note K)) :
  find_row K_eq_dec k rs = None -> ~ In k (map id rs).
Proof.
  induction rs as [|r rs IH]; simpl; [auto|].
  destruct (keyb K_eq_dec (id r) k) eqn:E; [discriminate|].
  intros Hn [H|H]; [rewrite H, keyb_refl in E; discriminate|exact (IH Hn H)].
Qed.

Lemma ids_map_set (k : K) (o : NoteObj K) (l : list (Note K)) :
  map id (map (fun r => if keyb K_eq_dec (id r) k then set_row r o else r) l)
  = map (fun x => if keyb K_eq_dec x k
                  then match o_id o with Some v => v | None => x end else x) (map id l).
Proof.
  induction l as [|r l IH]; simpl; [reflexivity|].
  rewrite IH; destruct (keyb K_eq_dec (id r) k); reflexivity.
Qed.

Lemma rekey_same (k : K) (l : list K) :
  map (fun x => if keyb K_eq_dec x k then k else x) l = l.
Proof.
  induction l as [|x l IH]; simpl; [reflexivity|].
  rewrite IH; destruct (keyb K_eq_dec x k) eqn:E; [apply keyb_true in E; subst|]; reflexivity.
Qed.

Lemma rekey_nodup (k k' : K) (l : list K) :
  NoDup l -> ~ In k' l -> NoDup (map (fun x => if keyb K_eq_dec x k then k' else x) l).
Proof.
  induction l as [|x l IH]; simpl; intros Hd Hn; [constructor|].
  inversion Hd as [|x0 l0 Hx Hd']; subst.
  constructor; [|apply IH; [exact Hd'|intro; apply Hn; right; assumption]].
  intros Hin; apply in_map_iff in Hin as [y [Ey Hy]].
  destruct (keyb K_eq_dec x k) eqn:Ex, (keyb K_eq_dec y k) eqn:Eyk;
    apply keyb_true in Ex || idtac; apply keyb_true in Eyk || idtac; subst.
  - contradiction.
  - apply Hn; right; exact Hy.
  - apply Hn; left; reflexivity.
  - contradiction.
Qed.

Lemma nodup_map_filter (p : Note K -> bool) (l : list (Note K)) :
  NoDup (map id l) -> NoDup (map id (filter p l)).
Proof.
  induction l as [|r l IH]; simpl; intros Hd; [constructor|].
  inversion Hd as [|x0 l0 Hx Hd']; subst.
  destruct (p r); simpl; [|apply IH; exact Hd'].
  constructor; [|apply IH; exact Hd'].
  intros Hin; apply Hx; apply in_map_iff in Hin as [y [Ey Hy]].
  apply filter_In in Hy as [Hy _]; rewrite <- Ey; apply in_map; exact Hy.
Qed.

Lemma nodup_snoc (l : list K) (k : K) : NoDup l -> ~ In k l -> NoDup (l ++ [k]).
Proof.
  intros Hd Hn; apply NoDup_app; [exact Hd|constructor; [intros []|constructor]|].
  intros a Ha [<-|[]]; contradiction.
Qed.

(** [save] keeps primary keys unique, provided a generated key is fresh. *)
Lemma wf_save (o : NoteObj K) (st : store K) :
  wf st ->
  (o_id o = None -> forall k, kc_next gen st = Some k -> ~ In k (ids st)) ->
  wf (snd (repo_save K_eq_dec gen o st)).
Proof.
  intros Hwf Hg; unfold repo_save, insert_row, wf in *.
  destruct (o_id o) as [k|] eqn:Ho.
  - destruct (find_row K_eq_dec k (rows st)) eqn:Hf; simpl.
    + rewrite ids_map_set, Ho, rekey_same; exact Hwf.
    + pose proof (find_row_none_inv _ _ Hf) as Hn.
      destruct (kc_ok gen k); simpl; [|exact Hwf].
      destruct (o_title o), (o_content o); simpl; try exact Hwf.
      rewrite map_app; apply nodup_snoc; assumption.
  - destruct (kc_next gen st) as [k|] eqn:Hk; simpl; [|exact Hwf].
    specialize (Hg eq_refl k eq_refl).
    destruct (kc_ok gen k); simpl; [|exact Hwf].
    destruct (o_title o), (o_content o); simpl; try exact Hwf.
    rewrite map_app; apply nodup_snoc; [exact Hwf|exact Hg].
Qed.

Lemma wf_remove_key (k : K) (st : store K) :
  wf st -> wf (mkStore (filter (fun r => negb (keyb K_eq_dec (id r) k)) (rows st)) (seq st)).
Proof. unfold wf; simpl; apply nodup_map_filter. Qed.

Lemma wf_updateA (i : K) (u : NoteObj K) (st : store K) :
  wf st -> wf (snd (ServiceA.update K_eq_dec gen i u st)).
Proof.
  intros Hwf; unfold ServiceA.update, ServiceA.findOne, repo_findOneBy, bind, ret, throw.
  destruct (find_row K_eq_dec i (rows st)) as [r|]; simpl; [|exact Hwf].
  apply wf_save; [exact Hwf|].
  unfold assign; simpl; destruct (o_id u); discriminate.
Qed.

Lemma wf_removeA (i : K) (st : store K) :
  wf st -> wf (snd (ServiceA.remove K_eq_dec i st)).
Proof.
  intros Hwf; unfold ServiceA.remove, ServiceA.findOne, repo_findOneBy, repo_remove,
    bind, ret, throw.
  destruct (find_row K_eq_dec i (rows st)) as [r|]; simpl; [|exact Hwf].
  apply wf_remove_key; exact Hwf.
Qed.

Lemma wf_updateB (i : K) (u : NoteObj K) (st : store K) :
  wf st -> wf (snd (ServiceB.update K_eq_dec gen i u st)).
Proof.
  intros Hwf; unfold ServiceB.update, ServiceB.findOne, repo_findOneBy, repo_update, bind.
  destruct (negb (has_columns u)); [exact Hwf|].
  destruct (negb (existsb _ (rows st))); [exact Hwf|].
  destruct (o_id u) as [k'|] eqn:Ho.
  - destruct (keyb K_eq_dec k' i) eqn:Eki.
    + apply keyb_true in Eki; subst.
      unfold wf in *; simpl; rewrite ids_map_set, Ho, rekey_same; exact Hwf.
    + destruct (negb (kc_ok gen k')); [exact Hwf|].
      destruct (existsb (fun r => keyb K_eq_dec (id r) k') (rows st)) eqn:Hv; [exact Hwf|].
      unfold wf in *; simpl; rewrite ids_map_set, Ho.
      apply rekey_nodup; [exact Hwf|].
      intros Hin; rewrite (existsb_key_true K_eq_dec k' _ Hin) in Hv; discriminate.
  - unfold wf in *; simpl; rewrite ids_map_set, Ho.
    replace (map (fun x => if keyb K_eq_dec x i then x else x) (map id (rows st)))
      with (map id (rows st)); [exact Hwf|].
    clear; induction (map id (rows st)) as [|x l IH]; simpl; [reflexivity|].
    rewrite <- IH; destruct (keyb K_eq_dec x i); reflexivity.
Qed.

Lemma wf_removeB (i : K) (st : store K) :
  wf st -> wf (snd (ServiceB.remove K_eq_dec i st)).
Proof. intros Hwf; apply wf_remove_key; exact Hwf. Qed.

End ServiceFacts.

Section ServiceFacts2.
Context {K : Type}.
Variable K_eq_dec : forall x y : K, {x = y} + {x <> y}.
Variable gen : KeyColumn K.

Lemma map_split_keyed (k : K) (f : Note K -> Note K) (l1 l2 : list (Note K)) (n : Note K) :
  ~ In k (map id l1) -> ~ In k (map id l2) -> id n = k ->
  map (fun r => if keyb K_eq_dec (id r) k then f r else r) (l1 ++ n :: l2)
  = l1 ++ f n :: l2.
Proof.
  intros H1 H2 Hn; rewrite map_app; simpl.
  rewrite !map_keyed_other by assumption; rewrite Hn, keyb_refl; reflexivity.
Qed.

(** Update of a persisted note with a payload that keeps its id rewrites
    that row in place, in both variants (variant B when the payload
    carries a column). *)
Lemma update_in_place (st : store K) (n : Note K) (u : NoteObj K) :
  wf st -> In n (rows st) -> (o_id u = None \/ o_id u = Some (id n)) ->
  exists l1 l2, rows st = l1 ++ n :: l2 /\ ~ In (id n) (map id l1)
    /\ rows (snd (ServiceA.update K_eq_dec gen (id n) u st)) = l1 ++ set_row n u :: l2
    /\ (has_columns u = true ->
        rows (snd (ServiceB.update K_eq_dec gen (id n) u st)) = l1 ++ set_row n u :: l2).
Proof.
  intros Hwf Hin Hid.
  destruct (split_persisted st n Hwf Hin) as [l1 [l2 [E [H1 H2]]]].
  exists l1, l2; split; [exact E|split; [exact H1|split]].
  - unfold ServiceA.update, bind.
    rewrite (findOneA_persisted K_eq_dec st n Hwf Hin), assign_to_obj.
    unfold repo_save; simpl.
    assert (Hk : (match o_id u with Some v => v | None => id n end) = id n)
      by (destruct Hid as [H|H]; rewrite H; reflexivity).
    rewrite Hk, (find_row_nodup K_eq_dec _ _ Hwf Hin); simpl.
    rewrite E, map_split_keyed by auto; reflexivity.
  - intros Hc; unfold ServiceB.update, ServiceB.findOne, repo_update, repo_findOneBy, bind.
    rewrite Hc, (existsb_key_true K_eq_dec (id n) _ (in_map id _ _ Hin)); simpl.
    destruct Hid as [H|H]; rewrite H; [|rewrite keyb_refl]; simpl;
      rewrite E, map_split_keyed by auto; reflexivity.
Qed.

(** Variant B: an update whose payload carries an id [k'] other than the
    row's is refused when the column does not accept [k'], refused when
    another row holds [k'], and otherwise moves the row to [k']; the
    [findOne(n.id)] that follows then finds nothing. *)
Lemma updateB_other_id (st : store K) (n : Note K) (u : NoteObj K) (k' : K) :
  wf st -> In n (rows st) -> o_id u = Some k' -> k' <> id n ->
  (kc_ok gen k' = false ->
   ServiceB.update K_eq_dec gen (id n) u st = (Err DatatypeMismatch, st))
  /\ (kc_ok gen k' = true -> In k' (ids st) ->
      ServiceB.update K_eq_dec gen (id n) u st = (Err (UniqueViolation k'), st))
  /\ (kc_ok gen k' = true -> ~ In k' (ids st) ->
      exists l1 l2, rows st = l1 ++ n :: l2 /\ ~ In k' (map id l1)
        /\ ~ In (id n) (map id l1) /\ ~ In (id n) (map id l2)
        /\ ServiceB.update K_eq_dec gen (id n) u st
           = (Ok None, mkStore (l1 ++ set_row n u :: l2) (seq st))).
Proof.
  intros Hwf Hin Hu Hne.
  assert (Hc : has_columns u = true) by (unfold has_columns; rewrite Hu; reflexivity).
  assert (Hex : existsb (fun r => keyb K_eq_dec (id r) (id n)) (rows st) = true)
    by (apply existsb_key_true, in_map; exact Hin).
  unfold ServiceB.update, ServiceB.findOne, repo_update, repo_findOneBy, bind.
  rewrite Hc, Hex, Hu, (keyb_false K_eq_dec k' (id n) Hne); cbn [negb].
  split; [|split].
  - intros Hok; rewrite Hok; reflexivity.
  - intros Hok Hk; rewrite Hok, (existsb_key_true K_eq_dec k' _ Hk); reflexivity.
  - intros Hok Hk; rewrite Hok, (existsb_key_false K_eq_dec k' _ Hk); cbn [negb].
    destruct (split_persisted st n Hwf Hin) as [l1 [l2 [E [H1 H2]]]].
    exists l1, l2; split; [exact E|split; [|split; [exact H1|split; [exact H2|]]]].
    + intro H; apply Hk; unfold ids; rewrite E, map_app, in_app_iff; left; exact H.
    + rewrite E, map_split_keyed by auto; cbn [rows].
      rewrite find_row_none; [reflexivity|].
      rewrite map_app, in_app_iff; simpl; unfold set_row; rewrite Hu.
      intros [H|[H|H]]; [exact (H1 H)|exact (Hne H)|exact (H2 H)].
Qed.

(** Variant A: an update whose payload carries an id held by no row
    inserts the merged note under that id and leaves the original row. *)
Lemma updateA_new_id (st : store K) (n : Note K) (u : NoteObj K) (k' : K) :
  wf st -> In n (rows st) -> o_id u = Some k' -> ~ In k' (ids st) -> kc_ok gen k' = true ->
  ServiceA.update K_eq_dec gen (id n) u st
  = (Ok (spec_merge n u), mkStore (rows st ++ [set_row n u]) (kc_seq gen k' (seq st))).
Proof.
  intros Hwf Hin Hk Hn Hok; unfold ServiceA.update, bind.
  rewrite (findOneA_persisted K_eq_dec st n Hwf Hin), assign_to_obj.
  unfold repo_save, insert_row, spec_merge, set_row; simpl; rewrite Hk.
  rewrite (find_row_none K_eq_dec k' _ Hn), Hok; reflexivity.
Qed.

(** [remove] of a persisted note deletes exactly its row, in both variants. *)
Lemma remove_exact (st : store K) (n : Note K) :
  wf st -> In n (rows st) ->
  exists l1 l2, rows st = l1 ++ n :: l2
    /\ rows (snd (ServiceA.remove K_eq_dec (id n) st)) = l1 ++ l2
    /\ rows (snd (ServiceB.remove K_eq_dec (id n) st)) = l1 ++ l2.
Proof.
  intros Hwf Hin.
  destruct (split_persisted st n Hwf Hin) as [l1 [l2 [E [H1 H2]]]].
  assert (Hf : filter (fun r => negb (keyb K_eq_dec (id r) (id n))) (rows st) = l1 ++ l2).
  { rewrite E, filter_app; simpl; rewrite keyb_refl; simpl.
    rewrite !filter_keyed_other by assumption; reflexivity. }
  exists l1, l2; split; [exact E|split].
  - unfold ServiceA.remove, ServiceA.findOne, repo_findOneBy, repo_remove, bind, ret.
    rewrite (find_row_nodup K_eq_dec _ _ Hwf Hin); simpl; exact Hf.
  - unfold ServiceB.remove, repo_delete, bind, ret; simpl; exact Hf.
Qed.

(** [create] with the id of an existing row overwrites that row in place
    (an upsert): no row is added. *)
Lemma create_existing_id (st : store K) (n : Note K) (a : NoteObj K) :
  wf st -> In n (rows st) -> o_id a = Some (id n) ->
  exists l1 l2, rows st = l1 ++ n :: l2
    /\ ServiceA.create K_eq_dec gen a st = (Ok a, mkStore (l1 ++ set_row n a :: l2) (seq st))
    /\ ServiceB.create K_eq_dec gen a st = (Ok a, mkStore (l1 ++ set_row n a :: l2) (seq st)).
Proof.
  intros Hwf Hin Ha.
  destruct (split_persisted st n Hwf Hin) as [l1 [l2 [E [H1 H2]]]].
  assert (H : repo_save K_eq_dec gen a st = (Ok a, mkStore (l1 ++ set_row n a :: l2) (seq st))).
  { unfold repo_save; rewrite Ha, (find_row_nodup K_eq_dec _ _ Hwf Hin).
    rewrite E, map_split_keyed by auto; reflexivity. }
  exists l1, l2; split; [exact E|split; exact H].
Qed.

End ServiceFacts2.

(** Variant B's update of a persisted note with an id other than its own,
    at the numeric key column, with the read-backs that follow. *)
Lemma updateB_other_id_Z (st : store Z) (n : Note Z) (u : NoteObj Z) (k' : Z) :
  wf st -> In n (rows st) -> o_id u = Some k' -> k' <> id n ->
  (~ (int64_min <= k' <= int64_max)%Z -> b_update (id n) u st = (Err DatatypeMismatch, st))
  /\ ((int64_min <= k' <= int64_max)%Z -> In k' (ids st) ->
      b_update (id n) u st = (Err (UniqueViolation k'), st))
  /\ ((int64_min <= k' <= int64_max)%Z -> ~ In k' (ids st) ->
      fst (b_update (id n) u st) = Ok None
      /\ fst (b_findOne k' (snd (b_update (id n) u st))) = Ok (Some (spec_merge n u))
      /\ fst (b_findOne (id n) (snd (b_update (id n) u st))) = Ok None).
Proof.
  intros Hwf Hin Hu Hne.
  assert (Hok : forall k, kc_ok genB k = true <-> (int64_min <= k <= int64_max)%Z).
  { intros k; simpl; rewrite andb_true_iff, !Z.leb_le; tauto. }
  destruct (updateB_other_id Z.eq_dec genB st n u k' Hwf Hin Hu Hne) as [Hd [Hq Hm]].
  unfold b_update, b_findOne.
  split; [|split].
  - intros Hr; apply Hd; destruct (kc_ok genB k') eqn:E; [|reflexivity].
    exfalso; apply Hr, Hok, E.
  - intros Hr; apply Hq, Hok, Hr.
  - intros Hr Hk; destruct (Hm (proj2 (Hok k') Hr) Hk) as [l1 [l2 [E [H1 [G1 [G2 HB]]]]]].
    rewrite HB; cbn [fst snd].
    assert (Hid : id (set_row n u) = k') by (unfold set_row; rewrite Hu; reflexivity).
    split; [reflexivity|split].
    + unfold ServiceB.findOne, repo_findOneBy; cbn [fst rows].
      rewrite (find_row_split Z.eq_dec k' l1 l2 _ H1 Hid); reflexivity.
    + unfold ServiceB.findOne, repo_findOneBy; cbn [fst rows].
      rewrite find_row_none; [reflexivity|].
      rewrite map_app, in_app_iff; cbn [map]; rewrite Hid.
      intros [H|[H|H]]; [exact (G1 H)|exact (Hne H)|exact (G2 H)].
Qed.

Lemma st1_wf : wf st1.
Proof. unfold wf, st1; simpl; constructor; [intros [H|[]]; discriminate|constructor; [intros []|constructor]]. Qed.

Lemma stB1_wf : wf stB1.
Proof. unfold wf, stB1; simpl; constructor; [intros [H|[]]; discriminate|constructor; [intros []|constructor]]. Qed.

(** ** Claims *)

(** C1 (counterexample): variant B does not raise [NotFound] for an absent
    id: [findOne(1)] on the empty table resolves to null. *)
Lemma C1_counterexample :
  ~ In 1%Z (ids (@empty Z)) /\ fst (b_findOne 1%Z empty) = Ok None
  /\ fst (b_findOne 1%Z empty) <> Err (NotFound 1%Z).
Proof. vm_compute. split; [intros []|split; [reflexivity|discriminate]]. Qed.

(** C1 (amended): for an id absent from the table, variant A's [findOne],
    [update] and [remove] each fail with [NotFound]; variant B's [findOne]
    resolves to null, its [update] to null (or the store's empty-update
    error when the body carries no column), its [remove] succeeds. *)
Theorem C1_absent_id {K : Type} (K_eq_dec : forall x y : K, {x = y} + {x <> y})
  (gen : KeyColumn K) (i : K) (u : NoteObj K) (st : store K) :
  ~ In i (ids st) ->
  (fst (ServiceA.findOne K_eq_dec i st) = Err (NotFound i)
   /\ fst (ServiceA.update K_eq_dec gen i u st) = Err (NotFound i)
   /\ fst (ServiceA.remove K_eq_dec i st) = Err (NotFound i))
  /\ (fst (ServiceB.findOne K_eq_dec i st) = Ok None
   /\ fst (ServiceB.update K_eq_dec gen i u st)
        = (if has_columns u then Ok None else Err UpdateValuesMissing)
   /\ fst (ServiceB.remove K_eq_dec i st) = Ok tt).
Proof.
  intros Hn. unfold ids in Hn.
  pose proof (find_row_none K_eq_dec i (rows st) Hn) as Hf.
  pose proof (existsb_key_false K_eq_dec i (rows st) Hn) as He.
  unfold ServiceA.update, ServiceA.remove, ServiceB.update, ServiceB.remove,
    ServiceA.findOne, ServiceB.findOne, repo_findOneBy, repo_update, repo_delete,
    bind, ret, throw.
  rewrite Hf, He; simpl.
  split; [repeat split|split; [reflexivity|split; [|reflexivity]]].
  destruct (has_columns u); simpl; [rewrite Hf|]; reflexivity.
Qed.

Lemma C1_absent_id_witness :
  ~ In "a" (ids (@empty string)) /\
  fst (ServiceA.findOne string_dec "a" empty) = Err (NotFound "a").
Proof.
  split; [intros []|].
  apply (C1_absent_id string_dec genA "a" (obj "t" "c") empty); intros [].
Defined.

(** C5 (counterexample): in variant B, [remove(1)] then [findOne(1)]
    resolves to null instead of failing with [NotFound]. *)
Lemma C5_counterexample :
  let st := mkStore [mkNote 1%Z "t" "c"] 1%Z in
  In (mkNote 1%Z "t" "c") (rows st) /\
  fst (b_findOne 1%Z (snd (b_remove 1%Z st))) = Ok None /\
  fst (b_findOne 1%Z (snd (b_remove 1%Z st))) <> Err (NotFound 1%Z).
Proof. vm_compute. split; [left; reflexivity|split; [reflexivity|discriminate]]. Qed.

(** C5 (amended): for a persisted note [n], variant A's [remove(n.id)]
    succeeds and a following [findOne(n.id)] fails with [NotFound];
    variant B's [remove(n.id)] succeeds and a following [findOne(n.id)]
    resolves to null. *)
Theorem C5_delete_durable {K : Type} (K_eq_dec : forall x y : K, {x = y} + {x <> y})
  (st : store K) (n : Note K) :
  In n (rows st) ->
  (fst (ServiceA.remove K_eq_dec (id n) st) = Ok tt
   /\ fst (ServiceA.findOne K_eq_dec (id n) (snd (ServiceA.remove K_eq_dec (id n) st)))
      = Err (NotFound (id n)))
  /\ (fst (ServiceB.remove K_eq_dec (id n) st) = Ok tt
   /\ fst (ServiceB.findOne K_eq_dec (id n) (snd (ServiceB.remove K_eq_dec (id n) st)))
      = Ok None).
Proof.
  intros Hin.
  destruct (find_row_in K_eq_dec (rows st) n Hin) as [r Hr].
  destruct (find_row_some K_eq_dec _ _ _ Hr) as [Hid _].
  unfold ServiceA.remove, ServiceB.remove, ServiceA.findOne, ServiceB.findOne,
    repo_findOneBy, repo_remove, repo_delete, bind, ret, throw.
  rewrite Hr; simpl; rewrite Hid.
  rewrite (find_row_none K_eq_dec (id n) _ (filter_not_key K_eq_dec (id n) (rows st))).
  repeat split.
Qed.

Lemma C5_delete_durable_witness :
  In (mkNote "a" "t" "c") (rows (mkStore [mkNote "a" "t" "c"] 0%Z)) /\
  fst (ServiceA.findOne string_dec "a"
         (snd (ServiceA.remove string_dec "a" (mkStore [mkNote "a" "t" "c"] 0%Z))))
  = Err (NotFound "a").
Proof.
  split; [left; reflexivity|].
  apply (C5_delete_durable string_dec (mkStore [mkNote "a" "t" "c"] 0%Z)
           (mkNote "a" "t" "c")).
  left; reflexivity.
Defined.

(** C7: a failed [update] or [remove] leaves the table untouched: in
    variant A, whenever either call fails with [NotFound] the store after
    the call is the store before it (findOne precedes any write); variant
    B never fails with [NotFound]. *)
Theorem C7_atomic_on_notfound {K : Type}
  (K_eq_dec : forall x y : K, {x = y} + {x <> y}) (gen : KeyColumn K)
  (i k : K) (u : NoteObj K) (st : store K) :
  (fst (ServiceA.update K_eq_dec gen i u st) = Err (NotFound k) ->
   snd (ServiceA.update K_eq_dec gen i u st) = st)
  /\ (fst (ServiceA.remove K_eq_dec i st) = Err (NotFound k) ->
      snd (ServiceA.remove K_eq_dec i st) = st)
  /\ fst (ServiceB.update K_eq_dec gen i u st) <> Err (NotFound k)
  /\ fst (ServiceB.remove K_eq_dec i st) <> Err (NotFound k).
Proof.
  split; [|split; [|split; [apply repo_update_not_notfound|discriminate]]].
  - unfold ServiceA.update, ServiceA.findOne, repo_findOneBy, bind, ret, throw.
    destruct (find_row K_eq_dec i (rows st)) as [r|]; simpl; [|reflexivity].
    intros H; exfalso; exact (repo_save_not_notfound K_eq_dec gen _ _ k H).
  - unfold ServiceA.remove, ServiceA.findOne, repo_findOneBy, repo_remove, bind, ret, throw.
    destruct (find_row K_eq_dec i (rows st)) as [r|]; simpl; [discriminate|reflexivity].
Qed.

(** C8: each controller method returns the single corresponding service
    call: variant A passes the path id through, variant B passes [+id]. *)
Theorem C8_controllers_delegate
  (genS : KeyColumn string)
  {K : Type} (K_eq_dec : forall x y : K, {x = y} + {x <> y})
  (gen : KeyColumn K) (unary_plus : string -> K)
  (s : string) (f : FilterNoteDto) (bA : NoteObj string) (bB : NoteObj K)
  (stA : store string) (stB : store K) :
  (ControllerA.create genS bA stA = ServiceA.create string_dec genS bA stA
   /\ ControllerA.findAll f stA = ServiceA.findAll f stA
   /\ ControllerA.findOne s stA = ServiceA.findOne string_dec s stA
   /\ ControllerA.update genS s bA stA = ServiceA.update string_dec genS s bA stA
   /\ ControllerA.remove s stA = ServiceA.remove string_dec s stA)
  /\ (ControllerB.findAll stB = ServiceB.findAll stB
   /\ ControllerB.findOne K_eq_dec unary_plus s stB
      = ServiceB.findOne K_eq_dec (unary_plus s) stB
   /\ ControllerB.create K_eq_dec gen bB stB = ServiceB.create K_eq_dec gen bB stB
   /\ ControllerB.update K_eq_dec gen unary_plus s bB stB
      = ServiceB.update K_eq_dec gen (unary_plus s) bB stB
   /\ ControllerB.remove K_eq_dec unary_plus s stB
      = ServiceB.remove K_eq_dec (unary_plus s) stB).
Proof. repeat split. Qed.

(** C9: in variant A, a filter whose title is the empty string is falsy,
    so [findAll] adds no LIKE condition and returns every row, as with no
    title at all. *)
Theorem C9_empty_title_filter {K : Type} (st : store K) :
  ServiceA.findAll (mkFilter (Some "")) st = ServiceA.findAll (mkFilter None) st
  /\ fst (ServiceA.findAll (mkFilter (Some "")) st) = Ok (map to_obj (rows st)).
Proof. split; reflexivity. Qed.

(** C10: variant B's [remove(i)] resolves for every id, present or not,
    and removing twice leaves the table as removing once. *)
Theorem C10_remove_total_idempotent {K : Type}
  (K_eq_dec : forall x y : K, {x = y} + {x <> y}) (i : K) (st : store K) :
  fst (ServiceB.remove K_eq_dec i st) = Ok tt
  /\ snd (ServiceB.remove K_eq_dec i (snd (ServiceB.remove K_eq_dec i st)))
     = snd (ServiceB.remove K_eq_dec i st).
Proof.
  unfold ServiceB.remove, repo_delete, bind, ret; simpl.
  split; [reflexivity|].
  rewrite filter_idem; reflexivity.
Qed.




(** C3 (code bug): the filter's title is interpolated into the LIKE
    pattern unescaped, so a [_] in it matches any one character: filtering
    on "_" returns the note titled "a", whose title does not contain "_". *)
Theorem C3_findAll_underscore :
  fst (a_findAll (mkFilter (Some "_")) (mkStore [mkNote "1" "a" "c"] 0%Z))
  = Ok [to_obj (mkNote "1" "a" "c")]
  /\ ~ contains "_" "a".
Proof.
  split; [vm_compute; reflexivity|].
  intros [p [q E]]; destruct p as [|x [|y p]]; simpl in E; discriminate.
Qed.

(** C4 (counterexample): in variant B, after a note is created with the
    explicit id [2^53], creating another note stores it under [2^53 + 1]
    but reports the id as the JavaScript number [2^53]; [findOne] of the
    reported id returns the first note. *)
Lemma C4_counterexample :
  let st := snd (b_create (mkObj (Some (2 ^ 53)%Z) (Some "a") (Some "x")) empty) in
  rows (snd (b_create (obj "b" "y") st))
  = [mkNote (2 ^ 53)%Z "a" "x"; mkNote (2 ^ 53 + 1)%Z "b" "y"]
  /\ fst (b_create (obj "b" "y") st) = Ok (mkObj (Some (2 ^ 53)%Z) (Some "b") (Some "y"))
  /\ fst (b_findOne (2 ^ 53)%Z (snd (b_create (obj "b" "y") st)))
     = Ok (Some (mkObj (Some (2 ^ 53)%Z) (Some "a") (Some "x"))).
Proof. vm_compute; split; [reflexivity|split; reflexivity]. Qed.

(** C4 (amended): for attributes with a title and a content and no id,
    variant A's [create] resolves to them plus a generated id [k], and
    [findOne(k)] then returns exactly that note. Variant B's [create]
    fails with SQLITE_FULL, store unchanged, once the largest of the
    AUTOINCREMENT sequence and the keys has reached [2^63 - 1]; otherwise
    it stores the note under the next key [k] and resolves to the
    attributes plus [k] converted to a JavaScript double, and
    [findOne(k)] returns the note. When the sequence and every key are
    below [2^53], that reported id is [k] itself, so the round trip
    holds. *)
Theorem C4_create_read (stA : store string) (stB : store Z) (t c : string) :
  (exists k, fst (a_create (obj t c) stA) = Ok (mkObj (Some k) (Some t) (Some c))
     /\ fst (a_findOne k (snd (a_create (obj t c) stA)))
        = Ok (mkObj (Some k) (Some t) (Some c)))
  /\ ((int64_max <= Z.max (seq stB) (max_id (ids stB)))%Z ->
      b_create (obj t c) stB = (Err StoreFull, stB))
  /\ ((Z.max (seq stB) (max_id (ids stB)) < int64_max)%Z ->
      exists k, fst (b_create (obj t c) stB)
                = Ok (mkObj (Some (round_double k)) (Some t) (Some c))
        /\ fst (b_findOne k (snd (b_create (obj t c) stB)))
           = Ok (Some (mkObj (Some k) (Some t) (Some c))))
  /\ ((seq stB < 2 ^ 53)%Z -> Forall (fun k => (k < 2 ^ 53)%Z) (ids stB) ->
      exists k, fst (b_create (obj t c) stB) = Ok (mkObj (Some k) (Some t) (Some c))
        /\ fst (b_findOne k (snd (b_create (obj t c) stB)))
           = Ok (Some (mkObj (Some k) (Some t) (Some c)))).
Proof.
  set (m := Z.max (seq stB) (max_id (ids stB))).
  assert (HB : (m < int64_max)%Z ->
    fst (b_create (obj t c) stB) = Ok (mkObj (Some (round_double (m + 1))) (Some t) (Some c))
    /\ fst (b_findOne (m + 1)%Z (snd (b_create (obj t c) stB)))
       = Ok (Some (mkObj (Some (m + 1)%Z) (Some t) (Some c)))).
  { intros Hm.
    assert (Hg : kc_next genB stB = Some (m + 1)%Z) by (apply next_rowid_spec; exact Hm).
    destruct (create_then_find Z.eq_dec genB stB t c _ Hg (genB_fresh stB _ Hg)
                (genB_ok stB _ Hg)) as [HA [HB Hf]].
    unfold b_create, b_findOne; rewrite HB, HA; split; [reflexivity|].
    unfold ServiceB.findOne, repo_findOneBy; simpl; rewrite Hf; reflexivity. }
  split; [|split; [|split]].
  - destruct (create_then_find string_dec genA stA t c (fresh_str (ids stA)) eq_refl
                (genA_fresh stA _ eq_refl) eq_refl) as [HA [_ Hf]].
    exists (fresh_str (ids stA)); unfold a_create, a_findOne; rewrite HA.
    split; [reflexivity|].
    unfold ServiceA.findOne, repo_findOneBy, bind, ret; simpl; rewrite Hf; reflexivity.
  - intros Hm; unfold b_create.
    apply (create_full Z.eq_dec genB stB (obj t c) eq_refl), next_rowid_full, Hm.
  - intros Hm; exists (m + 1)%Z; exact (HB Hm).
  - intros Hs Hi.
    assert (Hx : (max_id (ids stB) < 2 ^ 53)%Z) by (apply max_id_lt; [lia|exact Hi]).
    pose proof (max_id_nonneg (ids stB)).
    assert (Hm : (m < int64_max)%Z) by (unfold m, int64_max; lia).
    exists (m + 1)%Z; destruct (HB Hm) as [H1 H2].
    rewrite round_double_exact in H1 by (unfold m; lia).
    split; assumption.
Qed.

Lemma C4_create_read_witness :
  exists k, fst (b_create (obj "n" "m") stB1) = Ok (mkObj (Some k) (Some "n") (Some "m"))
    /\ fst (b_findOne k (snd (b_create (obj "n" "m") stB1)))
       = Ok (Some (mkObj (Some k) (Some "n") (Some "m"))).
Proof.
  apply (proj2 (proj2 (proj2 (C4_create_read st1 stB1 "n" "m")))).
  - reflexivity.
  - unfold stB1, ids; simpl; repeat constructor.
Defined.




(** ** Extra properties *)

(** X2: [create] of a body with a title, a content and no id appends
    exactly one row, under a key no row held, and keeps every existing
    row: always in variant A; in variant B whenever its AUTOINCREMENT is
    not exhausted, the sequence then advancing to the new key. *)
Theorem X2_create_appends (stA : store string) (stB : store Z) (t c : string) :
  (exists k, ~ In k (ids stA)
     /\ rows (snd (a_create (obj t c) stA)) = rows stA ++ [mkNote k t c])
  /\ ((Z.max (seq stB) (max_id (ids stB)) < int64_max)%Z ->
      exists k, ~ In k (ids stB)
        /\ rows (snd (b_create (obj t c) stB)) = rows stB ++ [mkNote k t c]
        /\ seq (snd (b_create (obj t c) stB)) = k).
Proof.
  split.
  - destruct (create_then_find string_dec genA stA t c (fresh_str (ids stA)) eq_refl
                (genA_fresh stA _ eq_refl) eq_refl) as [HA _].
    exists (fresh_str (ids stA)); unfold a_create; rewrite HA.
    split; [exact (genA_fresh stA _ eq_refl)|reflexivity].
  - intros Hm.
    assert (Hg : kc_next genB stB = Some (Z.max (seq stB) (max_id (ids stB)) + 1)%Z)
      by (apply next_rowid_spec; exact Hm).
    destruct (create_then_find Z.eq_dec genB stB t c _ Hg (genB_fresh stB _ Hg)
                (genB_ok stB _ Hg)) as [HA [HB _]].
    exists (Z.max (seq stB) (max_id (ids stB)) + 1)%Z; unfold b_create; rewrite HB, HA.
    split; [exact (genB_fresh stB _ Hg)|split; [reflexivity|]].
    cbn [snd seq kc_seq genB]; lia.
Qed.

Lemma X2_create_appends_witness :
  exists k, ~ In k (ids stB1)
    /\ rows (snd (b_create (obj "n" "m") stB1)) = rows stB1 ++ [mkNote k "n" "m"]
    /\ seq (snd (b_create (obj "n" "m") stB1)) = k.
Proof. apply (proj2 (X2_create_appends st1 stB1 "n" "m")); reflexivity. Defined.

(** X3: [create] with the id of an existing row is an upsert: that row is
    overwritten in place with the body's columns and no row is added, in
    both variants. *)
Theorem X3_create_existing_id {K : Type}
  (K_eq_dec : forall x y : K, {x = y} + {x <> y}) (gen : KeyColumn K)
  (st : store K) (n : Note K) (a : NoteObj K) :
  wf st -> In n (rows st) -> o_id a = Some (id n) ->
  exists l1 l2, rows st = l1 ++ n :: l2
    /\ ServiceA.create K_eq_dec gen a st = (Ok a, mkStore (l1 ++ set_row n a :: l2) (seq st))
    /\ ServiceB.create K_eq_dec gen a st = (Ok a, mkStore (l1 ++ set_row n a :: l2) (seq st)).
Proof. apply create_existing_id. Qed.

Lemma X3_create_existing_id_witness :
  exists l1 l2, rows stB1 = l1 ++ mkNote 2%Z "u" "d" :: l2
    /\ ServiceB.create Z.eq_dec genB (mkObj (Some 2%Z) (Some "v") None) stB1
       = (Ok (mkObj (Some 2%Z) (Some "v") None),
          mkStore (l1 ++ set_row (mkNote 2%Z "u" "d") (mkObj (Some 2%Z) (Some "v") None) :: l2)
                  (seq stB1)).
Proof.
  destruct (X3_create_existing_id Z.eq_dec genB stB1 (mkNote 2%Z "u" "d")
              (mkObj (Some 2%Z) (Some "v") None) stB1_wf
              ltac:(right; left; reflexivity) eq_refl) as [l1 [l2 [E [_ H]]]].
  exists l1, l2; split; [exact E|exact H].
Defined.

(** X4: variant A's writes keep primary keys unique: [create], [update]
    and [remove] map a table with unique keys to one with unique keys. *)
Theorem X4_unique_keys_A (st : store string) (a u : NoteObj string) (i : string) :
  wf st ->
  wf (snd (a_create a st)) /\ wf (snd (a_update i u st)) /\ wf (snd (a_remove i st)).
Proof.
  intros Hwf; split; [|split].
  - apply wf_save; [exact Hwf|intros _ k Hk; exact (genA_fresh st k Hk)].
  - apply wf_updateA; exact Hwf.
  - apply wf_removeA; exact Hwf.
Qed.

Lemma X4_unique_keys_A_witness :
  wf (snd (a_update "a" (mkObj (Some "b") None None) st1)).
Proof. apply (X4_unique_keys_A st1 (obj "x" "y") (mkObj (Some "b") None None) "a" st1_wf). Defined.

(** X5: variant B's writes keep primary keys unique: [create], [update]
    and [remove] map a table with unique keys to one with unique keys; an
    [update] of an existing row to a 64-bit key another row holds is
    refused with a UNIQUE error and leaves the table unchanged. *)
Theorem X5_unique_keys_B (st : store Z) (a u : NoteObj Z) (i : Z) :
  wf st ->
  wf (snd (b_create a st)) /\ wf (snd (b_update i u st)) /\ wf (snd (b_remove i st))
  /\ (forall k', o_id u = Some k' -> k' <> i -> (int64_min <= k' <= int64_max)%Z ->
      In i (ids st) -> In k' (ids st) ->
      b_update i u st = (Err (UniqueViolation k'), st)).
Proof.
  intros Hwf; split; [|split; [|split]].
  - apply wf_save; [exact Hwf|intros _ k Hk; exact (genB_fresh st k Hk)].
  - apply wf_updateB; exact Hwf.
  - apply wf_removeB; exact Hwf.
  - intros k' Hu Hne Hr Hi Hk.
    apply in_map_iff in Hi as [n [<- Hn]].
    exact (proj1 (proj2 (updateB_other_id_Z st n u k' Hwf Hn Hu Hne)) Hr Hk).
Qed.

Lemma X5_unique_keys_B_witness :
  wf (snd (b_update 1%Z (mkObj (Some 2%Z) None None) stB1))
  /\ b_update 1%Z (mkObj (Some 2%Z) None None) stB1 = (Err (UniqueViolation 2%Z), stB1).
Proof.
  destruct (X5_unique_keys_B stB1 (obj "x" "y") (mkObj (Some 2%Z) None None) 1%Z stB1_wf)
    as [_ [Hu [_ Hq]]].
  split; [exact Hu|].
  apply (Hq 2%Z eq_refl ltac:(discriminate)).
  - split; apply Z.leb_le; reflexivity.
  - left; reflexivity.
  - right; left; reflexivity.
Defined.

(** X6: [update] of a persisted note with a payload that carries no other
    id rewrites exactly that row, in place, with the payload's columns;
    every other row is kept (variant B when the payload carries a column). *)
Theorem X6_update_in_place {K : Type}
  (K_eq_dec : forall x y : K, {x = y} + {x <> y}) (gen : KeyColumn K)
  (st : store K) (n : Note K) (u : NoteObj K) :
  wf st -> In n (rows st) -> (o_id u = None \/ o_id u = Some (id n)) ->
  exists l1 l2, rows st = l1 ++ n :: l2
    /\ rows (snd (ServiceA.update K_eq_dec gen (id n) u st)) = l1 ++ set_row n u :: l2
    /\ (has_columns u = true ->
        rows (snd (ServiceB.update K_eq_dec gen (id n) u st)) = l1 ++ set_row n u :: l2).
Proof.
  intros Hwf Hin Hid.
  destruct (update_in_place K_eq_dec gen st n u Hwf Hin Hid) as [l1 [l2 [E [_ H]]]].
  exists l1, l2; split; [exact E|exact H].
Qed.

Lemma X6_update_in_place_witness :
  exists l1 l2, rows stB1 = l1 ++ mkNote 1%Z "t" "c" :: l2
    /\ rows (snd (ServiceA.update Z.eq_dec genB 1%Z (mkObj None None (Some "z")) stB1))
       = l1 ++ set_row (mkNote 1%Z "t" "c") (mkObj None None (Some "z")) :: l2.
Proof.
  destruct (X6_update_in_place Z.eq_dec genB stB1 (mkNote 1%Z "t" "c")
              (mkObj None None (Some "z")) stB1_wf ltac:(left; reflexivity)
              ltac:(left; reflexivity)) as [l1 [l2 [E [H _]]]].
  exists l1, l2; split; [exact E|exact H].
Defined.

(** X7: in variant A, reading a note back after updating it with a
    payload that carries no other id returns the merged note. *)
Theorem X7_update_then_findOne {K : Type}
  (K_eq_dec : forall x y : K, {x = y} + {x <> y}) (gen : KeyColumn K)
  (st : store K) (n : Note K) (u : NoteObj K) :
  wf st -> In n (rows st) -> (o_id u = None \/ o_id u = Some (id n)) ->
  fst (ServiceA.findOne K_eq_dec (id n) (snd (ServiceA.update K_eq_dec gen (id n) u st)))
  = Ok (spec_merge n u).
Proof.
  intros Hwf Hin Hid.
  destruct (update_in_place K_eq_dec gen st n u Hwf Hin Hid) as [l1 [l2 [_ [H1 [HA _]]]]].
  assert (Hk : id (set_row n u) = id n)
    by (unfold set_row; destruct Hid as [H|H]; rewrite H; reflexivity).
  unfold ServiceA.findOne, repo_findOneBy, bind, ret; rewrite HA.
  rewrite (find_row_split K_eq_dec (id n) l1 l2 _ H1 Hk); simpl.
  unfold to_obj, spec_merge, set_row; reflexivity.
Qed.

Lemma X7_update_then_findOne_witness :
  fst (ServiceA.findOne string_dec "b"
         (snd (ServiceA.update string_dec genA "b" (mkObj None (Some "new") None) st1)))
  = Ok (mkObj (Some "b") (Some "new") (Some "d")).
Proof.
  apply (X7_update_then_findOne string_dec genA st1 (mkNote "b" "u" "d")
           (mkObj None (Some "new") None) st1_wf).
  - right; left; reflexivity.
  - left; reflexivity.
Defined.

(** X8: in variant A, an update whose payload carries an id held by no row
    does not rename the note: the original row stays, and the merged note
    is appended under the new id. *)
Theorem X8_update_new_id_copies (st : store string) (n : Note string)
  (u : NoteObj string) (k' : string) :
  wf st -> In n (rows st) -> o_id u = Some k' -> ~ In k' (ids st) ->
  ServiceA.update string_dec genA (id n) u st
  = (Ok (spec_merge n u), mkStore (rows st ++ [set_row n u]) (seq st)).
Proof. intros Hwf Hin Hk Hn; exact (updateA_new_id string_dec genA st n u k' Hwf Hin Hk Hn eq_refl). Qed.

Lemma X8_update_new_id_copies_witness :
  ServiceA.update string_dec genA "a" (mkObj (Some "z") None None) st1
  = (Ok (mkObj (Some "z") (Some "t") (Some "c")),
     mkStore (rows st1 ++ [mkNote "z" "t" "c"]) (seq st1)).
Proof.
  apply (X8_update_new_id_copies st1 (mkNote "a" "t" "c")
           (mkObj (Some "z") None None) "z" st1_wf).
  - left; reflexivity.
  - reflexivity.
  - intros [H|[H|[]]]; discriminate.
Defined.

(** X9: [remove] of a persisted note deletes exactly its row and keeps all
    the others in order, in both variants. *)
Theorem X9_remove_exact {K : Type}
  (K_eq_dec : forall x y : K, {x = y} + {x <> y}) (st : store K) (n : Note K) :
  wf st -> In n (rows st) ->
  exists l1 l2, rows st = l1 ++ n :: l2
    /\ rows (snd (ServiceA.remove K_eq_dec (id n) st)) = l1 ++ l2
    /\ rows (snd (ServiceB.remove K_eq_dec (id n) st)) = l1 ++ l2.
Proof. apply remove_exact. Qed.

Lemma X9_remove_exact_witness :
  rows (snd (ServiceB.remove Z.eq_dec 1%Z stB1)) = [mkNote 2%Z "u" "d"].
Proof.
  destruct (X9_remove_exact Z.eq_dec stB1 (mkNote 1%Z "t" "c") stB1_wf
              ltac:(left; reflexivity)) as [l1 [l2 [E [_ H]]]].
  simpl in H; rewrite H; unfold stB1 in E; simpl in E.
  destruct l1 as [|x [|y l1]]; simpl in E; injection E.
  - intros <-; reflexivity.
  - intros _ E2; discriminate E2.
  - intros E3 _ _; destruct l1; discriminate E3.
Defined.
